(** * analyzer: the [/analyze] request handler of [app.py]

    A shallow embedding of the Flask handler [analyze] and of the Python
    built-ins it calls ([str.strip], [str.split], slicing, [range],
    [str.join], [len]), followed by the properties of the handler. *)

From Stdlib Require Import Ascii String.
From stdpp Require Import base numbers list strings gmap.

Local Open Scope Z_scope.

(** ** Python strings

    A Python [str] is a sequence of Unicode code points. *)

Abbreviation pystr := (list N).

(** A string literal of the source as a [pystr] (ASCII literals only). *)
Definition str (s : string) : pystr :=
  N_of_ascii <$> list_ascii_of_string s.

(** [len(x)] *)
Definition len {A} (l : list A) : Z := Z.of_nat (length l).

(** ['\n'] *)
Definition LF : N := 10.

Module Py.

(** Whitespace in the sense of [str.isspace], which is what [str.strip()]
    and [str.split()] without arguments test. *)
Definition isspace (c : N) : bool :=
  (((0x09 <=? c) && (c <=? 0x0D)) || ((0x1C <=? c) && (c <=? 0x20))
   || (c =? 0x85) || (c =? 0xA0) || (c =? 0x1680)
   || ((0x2000 <=? c) && (c <=? 0x200A))
   || (c =? 0x2028) || (c =? 0x2029) || (c =? 0x202F) || (c =? 0x205F)
   || (c =? 0x3000))%N.

(** [s.lstrip()], [s.rstrip()], [s.strip()] *)
Fixpoint lstrip (s : pystr) : pystr :=
  match s with
  | [] => []
  | c :: s' => if isspace c then lstrip s' else s
  end.

Definition rstrip (s : pystr) : pystr := reverse (lstrip (reverse s)).

Definition strip (s : pystr) : pystr := rstrip (lstrip s).

(** [s.split()]: the scan of [split_whitespace]; [word] holds the
    characters of the word being read, [[]] between words. *)
Fixpoint split_whitespace (word s : pystr) : list pystr :=
  match s with
  | [] => match word with [] => [] | _ => [word] end
  | c :: s' =>
      if isspace c
      then match word with
           | [] => split_whitespace [] s'
           | _ => word :: split_whitespace [] s'
           end
      else split_whitespace (word ++ [c]) s'
  end.

Definition split (s : pystr) : list pystr := split_whitespace [] s.

(** [s.split(sep)] for a separator [sep] of one character; [seg] holds
    the characters of the segment being read. *)
Fixpoint split_char (sep : N) (seg s : pystr) : list pystr :=
  match s with
  | [] => [seg]
  | c :: s' =>
      if (c =? sep)%N
      then seg :: split_char sep [] s'
      else split_char sep (seg ++ [c]) s'
  end.

Definition split_on (sep : N) (s : pystr) : list pystr :=
  split_char sep [] s.

(** [sep.join(parts)] *)
Fixpoint join (sep : pystr) (parts : list pystr) : pystr :=
  match parts with
  | [] => []
  | [p] => p
  | p :: rest => p ++ sep ++ join sep rest
  end.

(** Slice indices are clipped to the sequence as [PySlice_AdjustIndices]
    does for a step of 1: a negative index counts from the end. *)
Definition adjust_index (n i : Z) : Z :=
  if i <? 0 then Z.max 0 (i + n) else Z.min i n.

(** [s[i:j]] *)
Definition slice {A} (s : list A) (i j : Z) : list A :=
  let lo := adjust_index (len s) i in
  let hi := adjust_index (len s) j in
  take (Z.to_nat (hi - lo)) (drop (Z.to_nat lo) s).

(** [range(start, stop, step)] as the list of its items; the number of
    items is that of [compute_range_length]. [range] raises [ValueError]
    for a step of 0, which the handler never passes. *)
Definition range_length (start stop step : Z) : Z :=
  if 0 <? step
  then (if start <? stop then (stop - start - 1) / step + 1 else 0)
  else if step <? 0
  then (if stop <? start then (start - stop - 1) / (- step) + 1 else 0)
  else 0.

Definition range (start stop step : Z) : list Z :=
  (λ k : nat, start + Z.of_nat k * step)
    <$> seq 0 (Z.to_nat (range_length start stop step)).

End Py.

(** ** JSON values, as [request.get_json()] yields and [jsonify] takes them *)

#[local] Set Warnings "-register-all".

Inductive json :=
| JNull
| JBool (b : bool)
| JInt (n : Z)
| JFloat (mantissa exponent : Z)
| JStr (s : pystr)
| JList (l : list json)
| JDict (d : gmap pystr json).

(** [type(v).__name__] of the Python value a JSON value is decoded to. *)
Definition type_name (v : json) : pystr :=
  match v with
  | JNull => str "NoneType"
  | JBool _ => str "bool"
  | JInt _ => str "int"
  | JFloat _ _ => str "float"
  | JStr _ => str "str"
  | JList _ => str "list"
  | JDict _ => str "dict"
  end.

(** ** Exceptions

    A raised exception, as far as the handler can tell exceptions apart:
    its class name, whether it is an instance of [Exception] (only
    [BaseException]s such as [KeyboardInterrupt] are not), and [str(e)]. *)

Record exn := Exn {
  exn_class : pystr;
  exn_is_Exception : bool;
  exn_str : pystr
}.

(** The [AttributeError] of a method lookup [v.attr] that fails. *)
Definition AttributeError (v : json) (attr : string) : exn :=
  Exn (str "AttributeError") true
      (str "'" ++ type_name v ++ str "' object has no attribute '"
           ++ str attr ++ str "'").

(** ** Computations

    A computation runs in a world [W] (whatever the summarization pipeline
    reads and changes between calls) and either raises or returns. *)

Definition M (W A : Type) : Type := W → (exn + A) * W.

#[global] Instance M_ret {W} : MRet (M W) := λ A a w, (inr a, w).

#[global] Instance M_bind {W} : MBind (M W) := λ A B k m w,
  match m w with
  | (inl e, w') => (inl e, w')
  | (inr a, w') => k a w'
  end.

Definition raise {W A} (e : exn) : M W A := λ w, (inl e, w).

(** [try: m except Exception as e: h e] *)
Definition try_except_Exception {W A} (m : M W A) (h : exn → M W A) : M W A :=
  λ w, match m w with
       | (inl e, w') => if exn_is_Exception e then h e w' else (inl e, w')
       | (inr a, w') => (inr a, w')
       end.

(** [[f(x) for x in xs]] *)
Fixpoint comprehension {W A B} (f : A → M W B) (xs : list A) : M W (list B) :=
  match xs with
  | [] => mret []
  | x :: xs' => y ← f x; ys ← comprehension f xs'; mret (y :: ys)
  end.

(** ** The handler *)

(** What a view function returns: a JSON body and a status code
    ([jsonify(body)] alone has status 200). *)
Record response := Response { status : Z; body : json }.

(** The summarization pipeline as the handler uses it: the value of
    [summarizer(chunk, max_length=.., min_length=.., do_sample=..)[0]['summary_text']],
    which is a [str], or the exception that evaluating it raises. *)
Definition pipeline (W : Type) : Type := pystr → Z → Z → bool → M W pystr.

Section Handler.

Context {W : Type}.
Variable summarizer : pipeline W.

(** [data.get(key, fallback)] *)
Definition get (data : json) (key : pystr) (fallback : json) : M W json :=
  match data with
  | JDict d => mret (default fallback (d !! key))
  | _ => raise (AttributeError data "get")
  end.

(** [[content[i:i+1000] for i in range(0, len(content), 1000)]] *)
Definition chunks (content : pystr) : list pystr :=
  (λ i, Py.slice content i (i + 1000)) <$> Py.range 0 (len content) 1000.

(** The body of the [try] block. *)
Definition summarize (content : pystr) : M W response :=
  summaries ← comprehension (λ chunk, summarizer chunk 130 30 false)
                            (chunks content);
  let full_summary := Py.join (str " ") summaries in
  mret (Response 200 (JDict {[
    str "summary" := JStr full_summary;
    str "word_count" := JInt (len (Py.split content));
    str "line_count" := JInt (len (Py.split_on LF content)) ]})).

(** [analyze()], with [data] the value of [request.get_json()].
    [content.strip()] exists only when [content] is a [str]. *)
Definition analyze (data : json) : M W response :=
  content ← get data (str "content") (JStr []);
  match content with
  | JStr content =>
      match Py.strip content with
      | [] => mret (Response 400 (JDict {[ str "error" := JStr (str "Empty content") ]}))
      | _ =>
          try_except_Exception (summarize content)
            (λ e, mret (Response 500 (JDict {[ str "error" := JStr (exn_str e) ]})))
      end
  | _ => raise (AttributeError content "strip")
  end.

End Handler.

(** ** Observing the calls of the pipeline

    [spy f] behaves as [f] and appends each call to a log kept beside the
    world of [f]. *)

Record call := Call {
  call_text : pystr;
  call_max_length : Z;
  call_min_length : Z;
  call_do_sample : bool
}.

Definition spy {W} (f : pipeline W) : pipeline (W * list call) :=
  λ chunk max_length min_length do_sample '(w, log),
    let '(r, w') := f chunk max_length min_length do_sample w in
    (r, (w', log ++ [Call chunk max_length min_length do_sample])).

(** The call the handler makes for a chunk. *)
Definition call_for (chunk : pystr) : call := Call chunk 130 30 false.

(** * The vocabulary of the properties *)

(** ** Chunking *)

(** [ceil_div a b] is the ceiling of [a / b], for [0 < b]. *)
Definition ceil_div (a b : Z) : Z := - ((- a) / b).

(** ** Whitespace, words and lines *)

Definition whitespace (s : pystr) : Prop := Forall (λ c, Py.isspace c = true) s.
Definition solid (s : pystr) : Prop := Forall (λ c, Py.isspace c = false) s.

(** [tokenized s words]: [words] are the maximal runs of characters of [s]
    that are not whitespace, from left to right. Each word is preceded by
    the whitespace [ws] (none, before a word that starts the string) and
    followed by the end of the string or by a whitespace character. *)
Inductive tokenized : pystr → list pystr → Prop :=
| tokenized_end ws :
    whitespace ws → tokenized ws []
| tokenized_word ws word rest words :
    whitespace ws →
    word ≠ [] → solid word →
    (∀ c, head rest = Some c → Py.isspace c = true) →
    tokenized rest words →
    tokenized (ws ++ word ++ rest) (word :: words).

(** [segmented sep s segs]: [segs] are the segments of [s] between the
    occurrences of [sep]: no segment holds [sep], there is at least one
    segment, and putting [sep] between the segments gives [s] back. *)
Definition segmented (sep : N) (s : pystr) (segs : list pystr) : Prop :=
  segs ≠ [] ∧ Forall (λ seg, sep ∉ seg) segs ∧ Py.join [sep] segs = s.

(** ** Requests and responses *)

(** The [content] field of the request body, when the body is an object
    that has one. *)
Definition request_content (data : json) : option json :=
  match data with
  | JDict d => d !! str "content"
  | _ => None
  end.

(** A field of the JSON object of a response. *)
Definition field (r : response) (name : string) : option json :=
  match body r with
  | JDict d => d !! str name
  | _ => None
  end.

(** The fields a JSON object response has. *)
Definition fields (r : response) : gset pystr :=
  match body r with
  | JDict d => dom d
  | _ => ∅
  end.

Definition empty_content : response :=
  Response 400 (JDict {[ str "error" := JStr (str "Empty content") ]}).

Definition failure (e : exn) : response :=
  Response 500 (JDict {[ str "error" := JStr (exn_str e) ]}).

Definition success (summary : pystr) (word_count line_count : Z) : response :=
  Response 200 (JDict {[
    str "summary" := JStr summary;
    str "word_count" := JInt word_count;
    str "line_count" := JInt line_count ]}).

(** ** Sequential summarization *)

Section Sequential.

Context {W : Type}.
Variable summarizer : pipeline W.

(** [summarized chunks w texts w']: started in world [w], the pipeline
    is called on the chunks one after the other, each call in the world
    the previous call left; every call returns, [texts] are the returned
    summaries in the order of the chunks, and [w'] is the world after the
    last call. *)
Inductive summarized : list pystr → W → list pystr → W → Prop :=
| summarized_nil w : summarized [] w [] w
| summarized_cons chunk rest w text w1 texts w2 :
    summarizer chunk 130 30 false w = (inr text, w1) →
    summarized rest w1 texts w2 →
    summarized (chunk :: rest) w (text :: texts) w2.

(** [raised_at chunks w e w']: the calls return for the chunks before
    some chunk, and the call for that chunk raises [e], leaving [w']. *)
Inductive raised_at : list pystr → W → exn → W → Prop :=
| raised_here chunk rest w e w' :
    summarizer chunk 130 30 false w = (inl e, w') →
    raised_at (chunk :: rest) w e w'
| raised_later chunk rest w text w1 e w' :
    summarizer chunk 130 30 false w = (inr text, w1) →
    raised_at rest w1 e w' →
    raised_at (chunk :: rest) w e w'.

End Sequential.

(** ** Determinism *)

(** A pipeline is deterministic when what a call returns or raises does
    not depend on the world it is made in. *)
Definition deterministic {W} (f : pipeline W) : Prop :=
  ∀ chunk max_length min_length do_sample w1 w2,
    (f chunk max_length min_length do_sample w1).1
    = (f chunk max_length min_length do_sample w2).1.

(** ** The minimum length of a summary *)

(** A pipeline honours [min_length] when the summary it returns for a
    chunk that is not empty, asked for at least [min_length] > 0 tokens,
    is not the empty text. *)
Definition honours_min_length {W} (f : pipeline W) : Prop :=
  ∀ chunk max_length min_length do_sample w text w',
    chunk ≠ [] →
    0 < min_length →
    f chunk max_length min_length do_sample w = (inr text, w') →
    text ≠ [].

(** ** Pipelines to run the handler with *)

(** A pipeline without state: the summary of a chunk is its first three
    characters. *)
Definition echo3 : pipeline unit :=
  λ chunk _ _ _ w, (inr (take 3 chunk), w).

(** A pipeline that raises a [RuntimeError] for a chunk of fewer than 1000
    characters and otherwise behaves as [echo3]. *)
Definition RuntimeError (msg : string) : exn :=
  Exn (str "RuntimeError") true (str msg).

Definition short_fails : pipeline unit :=
  λ chunk _ _ _ w,
    if len chunk <? 1000 then (inl (RuntimeError "index out of range in self"), w)
    else (inr (take 3 chunk), w).

(** A pipeline with state: it numbers its calls, and the summary of a
    chunk is the number of the call as one character. *)
Definition numbering : pipeline N :=
  λ chunk _ _ _ n, (inr [(48 + n)%N], (n + 1)%N).

(** A pipeline with state whose summaries do not depend on it: it counts
    its calls. *)
Definition counting : pipeline N :=
  λ chunk _ _ _ n, (inr (take 3 chunk), (n + 1)%N).

(** A pipeline that returns the empty text for every chunk. *)
Definition silent : pipeline unit :=
  λ chunk _ _ _ w, (inr [], w).

(** A request with the body [{"content": content}]. *)
Definition request (content : pystr) : json :=
  JDict {[ str "content" := JStr content ]}.

(** [KeyboardInterrupt()], which is not an instance of [Exception]. *)
Definition KeyboardInterrupt : exn :=
  Exn (str "KeyboardInterrupt") false [].

(** A pipeline that returns for its first call and is interrupted during
    every later one; its world is the number of calls made. *)
Definition interrupted : pipeline N :=
  λ chunk _ _ _ n,
    if (n =? 0)%N then (inr (take 3 chunk), 1%N)
    else (inl KeyboardInterrupt, (n + 1)%N).

(** ** Counting words *)

(** The number of words that start in [s]: a word starts at a character
    that is not whitespace and comes after a whitespace character or, when
    [fresh], at the start of [s]. *)
Fixpoint word_starts (fresh : bool) (s : pystr) : nat :=
  match s with
  | [] => 0
  | c :: s' =>
      (if fresh && negb (Py.isspace c) then 1 else 0)%nat
      + word_starts (Py.isspace c) s'
  end.

(** [sum(len(x.split()) for x in parts)] *)
Definition total_words (parts : list pystr) : nat :=
  sum_list ((λ part, length (Py.split part)) <$> parts).

(** * Properties of the built-ins *)

(** ** Chunking *)

Lemma ceil_div_spec a b n :
  0 < b → (ceil_div a b = n ↔ b * (n - 1) < a ≤ b * n).
Proof.
  intros Hb. unfold ceil_div.
  pose proof (Z.div_mod (- a) b ltac:(lia)) as Hdm.
  pose proof (Z.mod_pos_bound (- a) b Hb) as Hm.
  split; [intros <-; nia | intros [H1 H2]; nia].
Qed.

Lemma adjust_index_inside n i : 0 ≤ i → Py.adjust_index n i = Z.min i n.
Proof. intros Hi. unfold Py.adjust_index. by rewrite (proj2 (Z.ltb_ge i 0)). Qed.

(** A slice of 1000 characters that starts inside the string. *)
Lemma slice_chunk {A} (s : list A) (k : nat) :
  Z.of_nat k * 1000 < len s →
  Py.slice s (0 + Z.of_nat k * 1000) (0 + Z.of_nat k * 1000 + 1000)
  = take (Z.to_nat 1000) (drop (k * Z.to_nat 1000) s).
Proof.
  unfold len, Py.slice. intros Hk.
  rewrite !adjust_index_inside by lia. fold (len s).
  replace (Z.to_nat (Z.min (0 + Z.of_nat k * 1000) (len s)))
    with (k * Z.to_nat 1000)%nat by (unfold len; lia).
  destruct (decide (Z.of_nat k * 1000 + 1000 ≤ len s)) as [Hle|Hgt].
  - f_equal. unfold len in *. lia.
  - rewrite !take_ge; [done | |]; rewrite length_drop; unfold len in *; lia.
Qed.

Lemma range_length_chunks (n : nat) :
  Py.range_length 0 (Z.of_nat n) 1000 = ceil_div (Z.of_nat n) 1000.
Proof.
  symmetry. apply ceil_div_spec; [lia|].
  unfold Py.range_length. change (0 <? 1000) with true. cbv iota.
  destruct (Z.ltb_spec 0 (Z.of_nat n)) as [Hpos|Hz]; [|lia].
  rewrite Z.sub_0_r.
  pose proof (Z.div_mod (Z.of_nat n - 1) 1000 ltac:(lia)).
  pose proof (Z.mod_pos_bound (Z.of_nat n - 1) 1000 ltac:(lia)).
  lia.
Qed.

(** The chunks, read off the list comprehension: chunk [k] is the slice
    [take 1000 (drop (1000 k))]. *)
Lemma chunks_unfold (content : pystr) :
  chunks content
  = (λ k : nat, take (Z.to_nat 1000) (drop (k * Z.to_nat 1000) content))
      <$> seq 0 (Z.to_nat (ceil_div (len content) 1000)).
Proof.
  unfold chunks, Py.range. unfold len at 1. rewrite range_length_chunks.
  fold (len content). rewrite <- list_fmap_compose.
  apply list_fmap_ext. intros i k Hk. simpl.
  apply lookup_seq in Hk as [-> Hk]. apply slice_chunk.
  assert (ceil_div (len content) 1000 = ceil_div (len content) 1000) as Hc by done.
  apply ceil_div_spec in Hc; lia.
Qed.

(** Consecutive slices of width [c] concatenate to a prefix. *)
Lemma concat_slices {A} (s : list A) (c m : nat) :
  concat ((λ k : nat, take c (drop (k * c) s)) <$> seq 0 m) = take (m * c) s.
Proof.
  induction m as [|m IH]; [done|].
  rewrite seq_S, fmap_app, concat_app, IH. simpl. rewrite app_nil_r.
  rewrite take_take_drop. f_equal. lia.
Qed.

Lemma chunks_length (content : pystr) :
  len (chunks content) = ceil_div (len content) 1000.
Proof.
  rewrite chunks_unfold. unfold len at 1. rewrite length_fmap, length_seq.
  assert (ceil_div (len content) 1000 = ceil_div (len content) 1000) as Hc by done.
  apply ceil_div_spec in Hc; unfold len in *; lia.
Qed.

Lemma chunks_lookup (content : pystr) (k : nat) chunk :
  chunks content !! k = Some chunk →
  (Z.of_nat k < ceil_div (len content) 1000
   ∧ chunk = take (Z.to_nat 1000) (drop (k * Z.to_nat 1000) content)).
Proof.
  rewrite chunks_unfold, list_lookup_fmap. intros Hk.
  destruct (seq _ _ !! k) as [k'|] eqn:Hs; [|done].
  apply lookup_seq in Hs as [-> Hs]. simpl in Hk.
  split; [lia | congruence].
Qed.

(** ** Whitespace: [strip] *)

Lemma lstrip_nil (s : pystr) : Py.lstrip s = [] ↔ whitespace s.
Proof.
  unfold whitespace. induction s as [|c s IH]; simpl.
  - split; [constructor | done].
  - destruct (Py.isspace c) eqn:Hc.
    + rewrite IH. split; [by constructor | by inversion 1].
    + split; [done | inversion 1; congruence].
Qed.

Lemma lstrip_whitespace (s : pystr) : whitespace (Py.lstrip s) → whitespace s.
Proof.
  unfold whitespace. induction s as [|c s IH]; simpl; [done|].
  destruct (Py.isspace c) eqn:Hc; [|done].
  intros H. constructor; auto.
Qed.

(** [strip] leaves nothing exactly when every character is whitespace. *)
Lemma strip_nil (s : pystr) : Py.strip s = [] ↔ whitespace s.
Proof.
  unfold Py.strip, Py.rstrip. split.
  - intros H. apply (f_equal reverse) in H.
    rewrite reverse_involutive, reverse_nil in H.
    apply lstrip_nil in H. unfold whitespace in H.
    rewrite Forall_reverse in H. by apply lstrip_whitespace.
  - intros H. apply lstrip_nil in H. rewrite H. done.
Qed.

Lemma strip_cons (s : pystr) :
  Py.strip s ≠ [] → ∃ c, c ∈ s ∧ Py.isspace c = false.
Proof.
  intros H. destruct (decide (whitespace s)) as [Hw|Hw].
  - by apply strip_nil in Hw.
  - apply not_Forall_Exists in Hw; [|intros c; apply _].
    apply Exists_exists in Hw as (c & Hin & Hc).
    exists c. split; [done|]. by apply not_true_is_false.
Qed.

(** ** Words: [split()] *)

Lemma split_whitespace_skip (ws s : pystr) :
  whitespace ws → Py.split_whitespace [] (ws ++ s) = Py.split_whitespace [] s.
Proof.
  induction 1 as [|c ws Hc _ IH]; simpl; [done|]. by rewrite Hc.
Qed.

Lemma split_whitespace_word (word t s : pystr) :
  solid t → Py.split_whitespace word (t ++ s) = Py.split_whitespace (word ++ t) s.
Proof.
  intros Ht. revert word. induction Ht as [|c t Hc _ IH]; intros word; simpl.
  - by rewrite app_nil_r.
  - rewrite Hc, IH. by rewrite <- app_assoc.
Qed.

Lemma split_whitespace_boundary (word rest : pystr) :
  word ≠ [] →
  (∀ c, head rest = Some c → Py.isspace c = true) →
  Py.split_whitespace word rest = word :: Py.split_whitespace [] rest.
Proof.
  intros Hw Hrest. destruct rest as [|c rest]; simpl.
  - by destruct word.
  - rewrite (Hrest c eq_refl). by destruct word.
Qed.

(** [split()] yields the maximal words, and only them. *)
Lemma tokenized_split (s : pystr) (words : list pystr) :
  tokenized s words → Py.split s = words.
Proof.
  unfold Py.split. induction 1 as [ws Hws|ws word rest words Hws Hne Hword Hrest _ IH].
  - rewrite <- (app_nil_r ws), split_whitespace_skip by done. done.
  - rewrite split_whitespace_skip, split_whitespace_word by done. simpl.
    rewrite split_whitespace_boundary by done. by rewrite IH.
Qed.

Lemma tokenized_space (c : N) (s : pystr) (words : list pystr) :
  Py.isspace c = true → tokenized s words → tokenized (c :: s) words.
Proof.
  intros Hc Ht. inversion Ht as [ws Hws|ws word rest words' Hws Hne Hword Hrest Ht']; subst.
  - apply tokenized_end. by constructor.
  - apply (tokenized_word (c :: ws)); [by constructor|done..].
Qed.

Lemma split_whitespace_tokenized (word s : pystr) :
  solid word →
  match word with
  | [] => tokenized s (Py.split_whitespace [] s)
  | _ => tokenized (word ++ s) (Py.split_whitespace word s)
  end.
Proof.
  revert word. induction s as [|c s IH]; intros word Hword.
  - destruct word as [|a word]; simpl.
    + apply tokenized_end. constructor.
    + apply (tokenized_word [] (a :: word) []); [constructor|done|done|done|].
      apply tokenized_end. constructor.
  - simpl. destruct (Py.isspace c) eqn:Hc.
    + pose proof (IH [] ltac:(constructor)) as Hs. simpl in Hs.
      destruct word as [|a word].
      * by apply tokenized_space.
      * apply (tokenized_word [] (a :: word) (c :: s)); [constructor|done|done| |].
        -- simpl. by intros ? [= <-].
        -- by apply tokenized_space.
    + assert (solid (word ++ [c])) as Hwc.
      { apply Forall_app. split; [done|]. by repeat constructor. }
      specialize (IH (word ++ [c]) Hwc).
      destruct word as [|a word]; simpl in *; [done|].
      by rewrite <- app_assoc in IH.
Qed.

Lemma split_tokenized (s : pystr) : tokenized s (Py.split s).
Proof. apply (split_whitespace_tokenized [] s). constructor. Qed.

(** A string with a character that is not whitespace has a word. *)
Lemma split_nonempty (s : pystr) (c : N) :
  c ∈ s → Py.isspace c = false → Py.split s ≠ [].
Proof.
  intros Hin Hc Hnil. pose proof (split_tokenized s) as Ht. rewrite Hnil in Ht.
  inversion Ht as [ws Hws|]; subst.
  unfold whitespace in Hws. rewrite Forall_forall in Hws.
  specialize (Hws c Hin). congruence.
Qed.

Lemma tokenized_words (s : pystr) (words : list pystr) :
  tokenized s words → Forall (λ word, word ≠ [] ∧ solid word) words.
Proof. induction 1; constructor; [by split | done]. Qed.

(** ** Lines: [split('\n')] *)

Lemma join_cons (sep p : pystr) (rest : list pystr) :
  rest ≠ [] → Py.join sep (p :: rest) = p ++ sep ++ Py.join sep rest.
Proof. by destruct rest. Qed.

Lemma split_char_nonempty (sep : N) (seg s : pystr) : Py.split_char sep seg s ≠ [].
Proof.
  revert seg. induction s as [|c s IH]; intros seg; simpl; [done|].
  destruct (c =? sep)%N; [done | apply IH].
Qed.

Lemma split_char_segment (sep : N) (seg t : pystr) :
  sep ∉ t → Py.split_char sep seg t = [seg ++ t].
Proof.
  revert seg. induction t as [|c t IH]; intros seg Ht; simpl.
  - by rewrite app_nil_r.
  - apply not_elem_of_cons in Ht as [Hc Ht].
    rewrite (proj2 (N.eqb_neq c sep)) by done.
    rewrite IH by done. by rewrite <- app_assoc.
Qed.

Lemma split_char_sep (sep : N) (seg t rest : pystr) :
  sep ∉ t →
  Py.split_char sep seg (t ++ sep :: rest) = (seg ++ t) :: Py.split_char sep [] rest.
Proof.
  revert seg. induction t as [|c t IH]; intros seg Ht; simpl.
  - by rewrite N.eqb_refl, app_nil_r.
  - apply not_elem_of_cons in Ht as [Hc Ht].
    rewrite (proj2 (N.eqb_neq c sep)) by done.
    rewrite IH by done. by rewrite <- app_assoc.
Qed.

Lemma segmented_split_on (sep : N) (s : pystr) (segs : list pystr) :
  segmented sep s segs → Py.split_on sep s = segs.
Proof.
  unfold Py.split_on. intros (Hne & Hsegs & <-).
  induction Hsegs as [|seg segs Hseg Hsegs IH]; [done|]. clear Hne.
  destruct segs as [|seg' segs].
  - simpl. by rewrite split_char_segment.
  - rewrite join_cons by done.
    change ([sep] ++ ?l) with (sep :: l).
    rewrite split_char_sep by done. by rewrite IH.
Qed.

Lemma split_char_segmented (sep : N) (seg s : pystr) :
  sep ∉ seg → segmented sep (seg ++ s) (Py.split_char sep seg s).
Proof.
  unfold segmented. revert seg. induction s as [|c s IH]; intros seg Hseg; simpl.
  - rewrite app_nil_r. repeat split; [done|]. by repeat constructor.
  - destruct (N.eqb_spec c sep) as [->|Hc].
    + destruct (IH [] ltac:(apply not_elem_of_nil)) as (Hne & Hall & Hjoin).
      split; [done|]. split; [by constructor|].
      rewrite join_cons by done. simpl in *. by rewrite Hjoin.
    + assert (sep ∉ seg ++ [c]) as Hsc.
      { rewrite elem_of_app, list_elem_of_singleton. intros [?|?]; [done | by subst]. }
      destruct (IH (seg ++ [c]) Hsc) as (Hne & Hall & Hjoin).
      split; [done|]. split; [done|]. by rewrite Hjoin, <- app_assoc.
Qed.

Lemma split_on_segmented (sep : N) (s : pystr) : segmented sep s (Py.split_on sep s).
Proof. apply (split_char_segmented sep [] s), not_elem_of_nil. Qed.

(** One segment more than there are separators. *)
Lemma split_char_length (sep : N) (seg s : pystr) :
  length (Py.split_char sep seg s) = S (length (filter (λ c, c = sep) s)).
Proof.
  revert seg. induction s as [|c s IH]; intros seg; simpl; [done|].
  destruct (N.eqb_spec c sep) as [->|Hc].
  - rewrite filter_cons_True by done. simpl. by rewrite IH.
  - rewrite filter_cons_False by done. by rewrite IH.
Qed.

(** The last segment of a string that ends with the separator is empty,
    and comes after the segments of the string before the separator. *)
Lemma split_char_trailing (sep : N) (seg s : pystr) :
  Py.split_char sep seg (s ++ [sep]) = Py.split_char sep seg s ++ [[]].
Proof.
  revert seg. induction s as [|c s IH]; intros seg; simpl.
  - by rewrite N.eqb_refl.
  - destruct (c =? sep)%N; by rewrite IH.
Qed.

Lemma filter_absent (sep : N) (s : pystr) :
  sep ∉ s → filter (λ c, c = sep) s = [].
Proof.
  induction s as [|c s IH]; [done|]. intros [Hc Hs]%not_elem_of_cons.
  rewrite filter_cons_False by done. by apply IH.
Qed.

(** The join of a list that has a first part: the first part, then each
    further part after one separator. *)
Lemma join_first (sep p : pystr) (rest : list pystr) :
  Py.join sep (p :: rest) = p ++ concat ((λ q, sep ++ q) <$> rest).
Proof.
  revert p. induction rest as [|q rest IH]; intros p.
  - simpl. by rewrite app_nil_r.
  - rewrite join_cons by done. rewrite IH. simpl. by rewrite <- app_assoc.
Qed.

(** A join with a space is empty only for the one empty part. *)
Lemma join_space_nil (parts : list pystr) :
  parts ≠ [] → (Py.join (str " ") parts = [] ↔ parts = [[]]).
Proof.
  intros Hne. destruct parts as [|first rest]; [done|]. rewrite join_first.
  split.
  - intros [-> Hrest]%app_eq_nil. destruct rest as [|q rest]; [done|].
    simpl in Hrest. discriminate.
  - by intros [= -> ->].
Qed.

(** Every chunk has a character. *)
Lemma chunks_partition_lengths (content : pystr) (k : nat) (chunk : pystr) :
  chunks content !! k = Some chunk → 0 < len chunk.
Proof.
  intros Hk. apply chunks_lookup in Hk as [Hk ->].
  assert (ceil_div (len content) 1000 = ceil_div (len content) 1000) as Hc by done.
  apply ceil_div_spec in Hc; [|lia].
  unfold len in *. rewrite length_take, length_drop. lia.
Qed.

(** * Properties of the handler *)

(** ** Responses *)

Lemma success_fields summary wc lc :
  field (success summary wc lc) "summary" = Some (JStr summary)
  ∧ field (success summary wc lc) "word_count" = Some (JInt wc)
  ∧ field (success summary wc lc) "line_count" = Some (JInt lc)
  ∧ field (success summary wc lc) "error" = None
  ∧ fields (success summary wc lc)
    = {[ str "summary"; str "word_count"; str "line_count" ]}.
Proof.
  unfold field, fields, success; simpl.
  split_and!; vm_compute; reflexivity.
Qed.

Lemma failure_fields e :
  field (failure e) "error" = Some (JStr (exn_str e))
  ∧ field (failure e) "summary" = None
  ∧ fields (failure e) = {[ str "error" ]}.
Proof.
  unfold field, fields, failure; simpl.
  split_and!; vm_compute; reflexivity.
Qed.

(** ** Sequential summarization *)

Section Summarized.

Context {W : Type}.
Variable summarizer : pipeline W.

Lemma comprehension_summarized chunks w texts w' :
  comprehension (λ chunk, summarizer chunk 130 30 false) chunks w = (inr texts, w')
  ↔ summarized summarizer chunks w texts w'.
Proof.
  split.
  - revert w texts. induction chunks as [|chunk rest IH]; intros w texts H.
    + injection H as <- <-. constructor.
    + simpl in H. unfold mbind, M_bind in H.
      destruct (summarizer chunk 130 30 false w) as [[e|text] w1] eqn:Hs; [done|].
      destruct (comprehension _ rest w1) as [[e|texts'] w2] eqn:Hr; [done|].
      injection H as <- <-. econstructor; eauto.
  - induction 1 as [|chunk rest w text w1 texts w2 Hs _ IH]; [done|].
    simpl. unfold mbind, M_bind. by rewrite Hs, IH.
Qed.

Lemma comprehension_raised chunks w e w' :
  comprehension (λ chunk, summarizer chunk 130 30 false) chunks w = (inl e, w')
  ↔ raised_at summarizer chunks w e w'.
Proof.
  split.
  - revert w. induction chunks as [|chunk rest IH]; intros w H; [done|].
    simpl in H. unfold mbind, M_bind in H.
    destruct (summarizer chunk 130 30 false w) as [[e1|text] w1] eqn:Hs.
    + injection H as <- <-. by constructor.
    + destruct (comprehension _ rest w1) as [[e2|texts'] w2] eqn:Hr; [|done].
      injection H as <- <-. eapply raised_later; eauto.
  - induction 1 as [chunk rest w e w' Hs|chunk rest w text w1 e w' Hs _ IH];
      simpl; unfold mbind, M_bind; rewrite Hs; [done|]. by rewrite IH.
Qed.

End Summarized.

Lemma summarized_length {W} (f : pipeline W) chunks w texts w' :
  summarized f chunks w texts w' → length texts = length chunks.
Proof. induction 1; simpl; congruence. Qed.

(** ** The outcomes of the handler *)

Section Outcomes.

Context {W : Type}.
Variable summarizer : pipeline W.

(** The body of the [try] block returns when every call returns. *)
Lemma summarize_returns content w resp w' :
  summarize summarizer content w = (inr resp, w')
  ↔ ∃ texts,
      summarized summarizer (chunks content) w texts w'
      ∧ resp = success (Py.join (str " ") texts)
                       (len (Py.split content))
                       (len (Py.split_on LF content)).
Proof.
  unfold summarize, mbind, M_bind. split.
  - destruct (comprehension _ _ w) as [[e|texts] w1] eqn:Hc; [done|].
    intros [= <- <-]. exists texts. split; [|done].
    by apply comprehension_summarized.
  - intros (texts & Hs & ->). apply comprehension_summarized in Hs.
    by rewrite Hs.
Qed.

(** It raises when a call raises, with the exception of that call. *)
Lemma summarize_raises content w e w' :
  summarize summarizer content w = (inl e, w')
  ↔ raised_at summarizer (chunks content) w e w'.
Proof.
  rewrite <- comprehension_raised. unfold summarize, mbind, M_bind, mret, M_ret.
  destruct (comprehension _ _ w) as [[e1|texts] w1].
  - split; intros [= <- <-]; done.
  - split; intros [=].
Qed.

(** A request whose [content] is a string with a character that is not
    whitespace reaches the [try] statement. *)
Lemma analyze_try data content w :
  request_content data = Some (JStr content) →
  Py.strip content ≠ [] →
  analyze summarizer data w
  = try_except_Exception (summarize summarizer content)
      (λ e, mret (failure e)) w.
Proof.
  intros Hc Hs. destruct data; try done. simpl in Hc.
  unfold analyze, get, mbind, M_bind, mret, M_ret. rewrite Hc. simpl.
  by destruct (Py.strip content).
Qed.

(** A request whose [content] is missing or a string of whitespace gets
    the 400 response, and the world is as before. *)
Lemma analyze_empty (d : gmap pystr json) w :
  (d !! str "content" = None
   ∨ ∃ content, d !! str "content" = Some (JStr content) ∧ whitespace content) →
  analyze summarizer (JDict d) w = (inr empty_content, w).
Proof.
  unfold analyze, get, mbind, M_bind, mret, M_ret.
  intros [->|(content & -> & Hws)]; simpl.
  - done.
  - apply strip_nil in Hws. by rewrite Hws.
Qed.

(** What a 200 response tells about the request and the calls. *)
Lemma analyze_200 data w resp w' :
  analyze summarizer data w = (inr resp, w') →
  status resp = 200 →
  ∃ content texts,
    request_content data = Some (JStr content)
    ∧ Py.strip content ≠ []
    ∧ summarized summarizer (chunks content) w texts w'
    ∧ resp = success (Py.join (str " ") texts)
                     (len (Py.split content))
                     (len (Py.split_on LF content)).
Proof.
  intros Ha Hst. destruct data as [| | | | |l|d]; try done.
  unfold analyze, get, mbind, M_bind, mret, M_ret in Ha. simpl in Ha.
  destruct (d !! str "content") as [v|] eqn:Hd; simpl in Ha.
  - destruct v as [| | | |content| |]; try done.
    destruct (Py.strip content) as [|c s] eqn:Hstrip.
    + injection Ha as <- <-. done.
    + unfold try_except_Exception in Ha.
      destruct (summarize summarizer content w) as [[e|r] w1] eqn:Hsum.
      * destruct (exn_is_Exception e); [|done]. injection Ha as <- <-. done.
      * injection Ha as <- <-. apply summarize_returns in Hsum as (texts & Hs & ->).
        exists content, texts. rewrite Hstrip. done.
  - injection Ha as <- <-. done.
Qed.

End Outcomes.

(** A string that [strip] does not empty has a first chunk. *)
Lemma chunks_nonempty (content : pystr) :
  Py.strip content ≠ [] → chunks content ≠ [].
Proof.
  intros Hs Hnil. pose proof (chunks_length content) as Hlen.
  rewrite Hnil in Hlen. symmetry in Hlen. apply ceil_div_spec in Hlen; [|lia].
  destruct content; [done|]. unfold len in Hlen. simpl in Hlen. lia.
Qed.

(** A call that raises whatever the world makes the run raise, at that
    chunk or at an earlier one. *)
Lemma raised_at_member {W} (f : pipeline W) chunks chunk w :
  chunk ∈ chunks →
  (∀ u, ∃ e u', f chunk 130 30 false u = (inl e, u')) →
  ∃ e w', raised_at f chunks w e w'.
Proof.
  intros Hin Hraise. revert w.
  induction chunks as [|c rest IH]; intros w; [by apply elem_of_nil in Hin|].
  destruct (f c 130 30 false w) as [[e|text] w1] eqn:Hc.
  - exists e, w1. by constructor.
  - apply elem_of_cons in Hin as [->|Hin].
    + destruct (Hraise w) as (e & u' & He). congruence.
    + destruct (IH Hin w1) as (e & w' & Hr). exists e, w'.
      by eapply raised_later.
Qed.

(** An exception that is not an instance of [Exception] passes the
    [except] clause: the handler returns no response. *)
Lemma analyze_propagates {W} (f : pipeline W) data content w e w' :
  request_content data = Some (JStr content) →
  Py.strip content ≠ [] →
  raised_at f (chunks content) w e w' →
  exn_is_Exception e = false →
  analyze f data w = (inl e, w').
Proof.
  intros Hc Hs Hr He. rewrite (analyze_try f data content w Hc Hs).
  apply summarize_raises in Hr. unfold try_except_Exception. by rewrite Hr, He.
Qed.

(** ** The calls a request makes *)

Lemma spy_result {W} (f : pipeline W) chunk w log r w' log' :
  spy f chunk 130 30 false (w, log) = (r, (w', log'))
  ↔ f chunk 130 30 false w = (r, w') ∧ log' = log ++ [call_for chunk].
Proof.
  unfold spy, call_for. destruct (f chunk 130 30 false w) as [r1 w1].
  split; [intros [= <- <- <-]; done | intros [[= <- <-] ->]; done].
Qed.

(** When every call returns, the log has grown by the calls for the
    chunks, in the order of the chunks. *)
Lemma spy_summarized {W} (f : pipeline W) chunks w log texts w' log' :
  summarized (spy f) chunks (w, log) texts (w', log')
  ↔ summarized f chunks w texts w' ∧ log' = log ++ (call_for <$> chunks).
Proof.
  split.
  - remember (w, log) as wl eqn:Hwl. remember (w', log') as wl' eqn:Hwl'.
    intros H. revert w log Hwl w' log' Hwl'.
    induction H as [wl|chunk rest wl text [w1 log1] texts wl2 Hs _ IH];
      intros w log -> w' log'.
    + intros [= <- <-]. split; [constructor | by rewrite app_nil_r].
    + intros ->. apply spy_result in Hs as [Hs ->].
      destruct (IH _ _ eq_refl _ _ eq_refl) as [Hr ->].
      split; [by econstructor|]. by rewrite fmap_cons, <- app_assoc.
  - intros [H ->]. revert log.
    induction H as [w|chunk rest w text w1 texts w2 Hs _ IH]; intros log.
    + rewrite app_nil_r. constructor.
    + apply (summarized_cons _ _ _ _ _ (w1, log ++ [call_for chunk])).
      * by apply spy_result.
      * rewrite fmap_cons.
        replace (log ++ call_for chunk :: (call_for <$> rest))
          with ((log ++ [call_for chunk]) ++ (call_for <$> rest))
          by (by rewrite <- app_assoc).
        apply IH.
Qed.

(** ** Deterministic pipelines *)

Lemma comprehension_deterministic {W} (f : pipeline W) chunks w1 w2 :
  deterministic f →
  (comprehension (λ chunk, f chunk 130 30 false) chunks w1).1
  = (comprehension (λ chunk, f chunk 130 30 false) chunks w2).1.
Proof.
  intros Hf. revert w1 w2. induction chunks as [|chunk rest IH]; intros w1 w2; [done|].
  simpl. unfold mbind, M_bind.
  pose proof (Hf chunk 130 30 false w1 w2) as Hc.
  destruct (f chunk 130 30 false w1) as [[e1|text1] u1],
           (f chunk 130 30 false w2) as [[e2|text2] u2]; simpl in Hc; try done.
  - by injection Hc as ->.
  - injection Hc as ->. specialize (IH u1 u2).
    destruct (comprehension _ rest u1) as [[e3|texts1] v1],
             (comprehension _ rest u2) as [[e4|texts2] v2]; simpl in IH; try done.
    by injection IH as ->.
Qed.

(** * The claims *)

(** C1: for every string [content] of length [L], the handler's chunk list
    has exactly ceil(L/1000) chunks; chunk [k] holds the characters of
    [content] at the positions [1000k, 1000k+1000) (fewer in the final
    chunk, when the string ends earlier); and the chunks concatenated in
    order are [content]. *)
Theorem chunks_partition (content : pystr) :
  len (chunks content) = ceil_div (len content) 1000
  ∧ (∀ (k : nat) (chunk : pystr), chunks content !! k = Some chunk →
       len chunk = Z.min 1000 (len content - 1000 * Z.of_nat k)
       ∧ 0 < len chunk
       ∧ ∀ p : Z, 1000 * Z.of_nat k ≤ p < 1000 * Z.of_nat k + 1000 →
           chunk !! Z.to_nat (p - 1000 * Z.of_nat k) = content !! Z.to_nat p)
  ∧ concat (chunks content) = content.
Proof.
  split; [apply chunks_length|]. split.
  - intros k chunk Hk. apply chunks_lookup in Hk as [Hk ->].
    assert (ceil_div (len content) 1000 = ceil_div (len content) 1000) as Hc by done.
    apply ceil_div_spec in Hc; [|lia].
    assert (len (take (Z.to_nat 1000) (drop (k * Z.to_nat 1000) content))
            = Z.min 1000 (len content - 1000 * Z.of_nat k)) as Hlen.
    { unfold len in *. rewrite length_take, length_drop. lia. }
    split; [done|]. split; [lia|].
    intros p Hp. rewrite lookup_take_lt by lia. rewrite lookup_drop.
    f_equal. lia.
  - rewrite chunks_unfold, concat_slices. apply take_ge.
    assert (ceil_div (len content) 1000 = ceil_div (len content) 1000) as Hc by done.
    apply ceil_div_spec in Hc; unfold len in *; lia.
Qed.

Lemma chunks_partition_witness :
  len (chunks (replicate 2500 97%N)) = 3
  ∧ chunks (replicate 2500 97%N) !! 2%nat = Some (replicate 500 97%N)
  ∧ len (replicate 500 97%N) = Z.min 1000 (len (replicate 2500 97%N) - 1000 * 2)
  ∧ concat (chunks (replicate 2500 97%N)) = replicate 2500 97%N.
Proof.
  destruct (chunks_partition (replicate 2500 97%N)) as (Hlen & Hchunk & Hcat).
  assert (chunks (replicate 2500 97%N) !! 2%nat = Some (replicate 500 97%N)) as Hk
    by (vm_compute; reflexivity).
  destruct (Hchunk 2%nat _ Hk) as (Hlen2 & _).
  split_and!; [|done..]. rewrite Hlen. vm_compute. reflexivity.
Defined.

(** C2: a request without a [content] field, or whose [content] is a
    string of whitespace characters only (of any length, the empty string
    included: exactly the strings that [strip] empties, see [strip_nil]),
    is answered with status 400 and the body [{"error": "Empty content"}];
    the pipeline is not called and its world is unchanged. *)
Theorem empty_content_rejected {W} (f : pipeline W) (d : gmap pystr json)
    (w : W) (log : list call) :
  (d !! str "content" = None
   ∨ ∃ content, d !! str "content" = Some (JStr content) ∧ whitespace content) →
  analyze f (JDict d) w
  = (inr (Response 400 (JDict {[ str "error" := JStr (str "Empty content") ]})), w)
  ∧ analyze (spy f) (JDict d) (w, log)
    = (inr (Response 400 (JDict {[ str "error" := JStr (str "Empty content") ]})),
       (w, log)).
Proof. intros Hd. split; by apply analyze_empty. Qed.

Lemma empty_content_rejected_witness :
  analyze echo3 (request (str "   ")) ()
  = (inr (Response 400 (JDict {[ str "error" := JStr (str "Empty content") ]})), ())
  ∧ analyze (spy echo3) (request (str "   ")) ((), [])
    = (inr (Response 400 (JDict {[ str "error" := JStr (str "Empty content") ]})),
       ((), [])).
Proof.
  apply (empty_content_rejected echo3 {[ str "content" := JStr (str "   ") ]}).
  right. exists (str "   "). split; [vm_compute; reflexivity|].
  repeat constructor.
Defined.

(** C3: when the call of the pipeline for some chunk raises an exception
    [e] (an instance of [Exception], which is what the [except] clause
    names), the calls for the chunks before it having returned, or when
    the [try] block fails with [e] in any other way, the handler answers
    with status 500 and the body [{"error": str(e)}]: a response without a
    [summary], whatever the earlier calls returned, and not a 200 one. *)
Theorem failure_is_500 {W} (f : pipeline W) (data : json)
    (content : pystr) (w w' : W) (e : exn) :
  request_content data = Some (JStr content) →
  ¬ whitespace content →
  raised_at f (chunks content) w e w' ∨ summarize f content w = (inl e, w') →
  exn_is_Exception e = true →
  ∃ resp,
    analyze f data w = (inr resp, w')
    ∧ resp = Response 500 (JDict {[ str "error" := JStr (exn_str e) ]})
    ∧ status resp ≠ 200
    ∧ fields resp = {[ str "error" ]}
    ∧ field resp "summary" = None.
Proof.
  intros Hc Hws Hr He.
  assert (Py.strip content ≠ []) as Hs by (by rewrite strip_nil).
  assert (summarize f content w = (inl e, w')) as Hsum.
  { destruct Hr as [Hr|Hr]; [by apply summarize_raises | done]. }
  exists (failure e). destruct (failure_fields e) as (_ & Hsummary & Hdom).
  split_and!; try done.
  rewrite (analyze_try f data content w Hc Hs).
  unfold try_except_Exception. by rewrite Hsum, He.
Qed.

Lemma failure_is_500_witness :
  ∃ resp,
    analyze short_fails (request (replicate 1500 97%N)) () = (inr resp, ())
    ∧ resp = Response 500 (JDict {[
               str "error" := JStr (str "index out of range in self") ]})
    ∧ status resp ≠ 200
    ∧ fields resp = {[ str "error" ]}
    ∧ field resp "summary" = None.
Proof.
  apply (failure_is_500 short_fails (request (replicate 1500 97%N))
           (replicate 1500 97%N) () ()
           (RuntimeError "index out of range in self")).
  - vm_compute. reflexivity.
  - intros Hws. by apply Forall_cons in Hws as [[=] _].
  - left.
    let cs := eval vm_compute in (chunks (replicate 1500 97%N)) in
    change (chunks (replicate 1500 97%N)) with cs.
    eapply raised_later; [vm_compute; reflexivity|].
    apply raised_here. vm_compute. reflexivity.
  - reflexivity.
Defined.

(** C4: in a 200 response, [word_count] is the number of words of the
    [content] of the request (not of the summary), the words being the
    maximal runs of characters that are not whitespace, each delimited by
    whitespace or an end of the string; [words] is the only such division
    of [content]. For "hello world" the count is 2, for "  a  " it is 1. *)
Theorem word_count_counts_words {W} (f : pipeline W) (data : json)
    (w w' : W) (resp : response) :
  analyze f data w = (inr resp, w') →
  status resp = 200 →
  ∃ content words,
    request_content data = Some (JStr content)
    ∧ tokenized content words
    ∧ (∀ words', tokenized content words' → words' = words)
    ∧ Forall (λ word, word ≠ [] ∧ solid word) words
    ∧ field resp "word_count" = Some (JInt (len words))
    ∧ (content = str "hello world" → field resp "word_count" = Some (JInt 2))
    ∧ (content = str "  a  " → field resp "word_count" = Some (JInt 1)).
Proof.
  intros Ha Hst.
  destruct (analyze_200 f data w resp w' Ha Hst) as (content & texts & Hc & _ & _ & ->).
  exists content, (Py.split content).
  destruct (success_fields (Py.join (str " ") texts) (len (Py.split content))
              (len (Py.split_on LF content))) as (_ & Hwc & _).
  split_and!; [done|apply split_tokenized| | |done|by intros ->|by intros ->].
  - intros words' Hw. by apply tokenized_split in Hw.
  - apply (tokenized_words content), split_tokenized.
Qed.

Lemma word_count_counts_words_witness :
  ∃ content words,
    request_content (request (str "hello world")) = Some (JStr content)
    ∧ tokenized content words
    ∧ (∀ words', tokenized content words' → words' = words)
    ∧ Forall (λ word, word ≠ [] ∧ solid word) words
    ∧ field (success (str "hel") 2 1) "word_count" = Some (JInt (len words))
    ∧ (content = str "hello world"
       → field (success (str "hel") 2 1) "word_count" = Some (JInt 2))
    ∧ (content = str "  a  "
       → field (success (str "hel") 2 1) "word_count" = Some (JInt 1)).
Proof.
  apply (word_count_counts_words echo3 (request (str "hello world")) () ()).
  - vm_compute. reflexivity.
  - reflexivity.
Defined.

(** C5: in a 200 response, [line_count] is the number of segments that
    the newline characters divide the [content] of the request into, one
    more than there are newline characters: 1 for a string without a
    newline, and for a string that ends with a newline the last segment,
    which is counted, is the empty one after it. For "a\nb\nc" the count
    is 3, for "a" it is 1 and for "a\n" it is 2. *)
Theorem line_count_counts_segments {W} (f : pipeline W) (data : json)
    (w w' : W) (resp : response) :
  analyze f data w = (inr resp, w') →
  status resp = 200 →
  ∃ content segments,
    request_content data = Some (JStr content)
    ∧ segmented LF content segments
    ∧ (∀ segments', segmented LF content segments' → segments' = segments)
    ∧ field resp "line_count" = Some (JInt (len segments))
    ∧ len segments = 1 + len (filter (λ c, c = LF) content)
    ∧ (LF ∉ content → len segments = 1)
    ∧ (∀ s segments_s, content = s ++ [LF] → segmented LF s segments_s →
         segments = segments_s ++ [[]])
    ∧ (content = str "a" ++ [LF] ++ str "b" ++ [LF] ++ str "c" →
         field resp "line_count" = Some (JInt 3))
    ∧ (content = str "a" → field resp "line_count" = Some (JInt 1))
    ∧ (content = str "a" ++ [LF] → field resp "line_count" = Some (JInt 2)).
Proof.
  intros Ha Hst.
  destruct (analyze_200 f data w resp w' Ha Hst) as (content & texts & Hc & _ & _ & ->).
  exists content, (Py.split_on LF content).
  destruct (success_fields (Py.join (str " ") texts) (len (Py.split content))
              (len (Py.split_on LF content))) as (_ & _ & Hlc & _).
  assert (len (Py.split_on LF content) = 1 + len (filter (λ c, c = LF) content))
    as Hlen.
  { unfold len, Py.split_on. rewrite split_char_length. lia. }
  split_and!; [done|apply split_on_segmented| |done|done| |
               |by intros ->|by intros ->|by intros ->].
  - intros segs Hsegs. by apply segmented_split_on in Hsegs.
  - intros Hno. rewrite Hlen, filter_absent by done. done.
  - intros s segs_s -> Hs. apply segmented_split_on in Hs as <-.
    apply split_char_trailing.
Qed.

Lemma line_count_counts_segments_witness :
  ∃ content segments,
    request_content (request (str "a" ++ [LF] ++ str "b" ++ [LF] ++ str "c"))
    = Some (JStr content)
    ∧ segmented LF content segments
    ∧ field (success (str "a" ++ [LF] ++ str "b") 3 3) "line_count" = Some (JInt (len segments))
    ∧ len segments = 3.
Proof.
  destruct (line_count_counts_segments echo3
              (request (str "a" ++ [LF] ++ str "b" ++ [LF] ++ str "c")) () ()
              (success (str "a" ++ [LF] ++ str "b") 3 3))
    as (content & segments & Hc & Hsegs & _ & Hlc & _ & _ & _ & H3 & _).
  - vm_compute. reflexivity.
  - reflexivity.
  - exists content, segments. split_and!; [done..|].
    assert (content = str "a" ++ [LF] ++ str "b" ++ [LF] ++ str "c") as Hcontent.
    { vm_compute in Hc. by injection Hc as <-. }
    specialize (H3 Hcontent). rewrite Hlc in H3. by injection H3.
Defined.

(** C6: in a 200 response, [summary] is the join with one space of the
    summaries of the chunks, in the order of the chunks: the first
    summary, then each further one after a single space. The pipeline is
    called for the chunks one after the other in that order, each call in
    the world the previous call left, as the log of the calls shows. *)
Theorem summary_joins_in_order {W} (f : pipeline W) (data : json)
    (w w' : W) (log log' : list call) (resp : response) :
  analyze (spy f) data (w, log) = (inr resp, (w', log')) →
  status resp = 200 →
  ∃ content first rest,
    request_content data = Some (JStr content)
    ∧ summarized f (chunks content) w (first :: rest) w'
    ∧ length (first :: rest) = length (chunks content)
    ∧ log' = log ++ (call_for <$> chunks content)
    ∧ field resp "summary" = Some (JStr (Py.join (str " ") (first :: rest)))
    ∧ Py.join (str " ") (first :: rest)
      = first ++ concat ((λ text, [32%N] ++ text) <$> rest).
Proof.
  intros Ha Hst.
  destruct (analyze_200 _ _ _ _ _ Ha Hst) as (content & texts & Hc & Hs & Hsum & ->).
  apply spy_summarized in Hsum as [Hsum ->].
  pose proof (summarized_length _ _ _ _ _ Hsum) as Hlen.
  destruct texts as [|first rest].
  { apply chunks_nonempty in Hs. by destruct (chunks content). }
  exists content, first, rest.
  split_and!; [done..| |apply join_first].
  apply success_fields.
Qed.

Lemma summary_joins_in_order_witness :
  ∃ content first rest,
    request_content (request (replicate 1500 97%N)) = Some (JStr content)
    ∧ summarized numbering (chunks content) 0%N (first :: rest) 2%N
    ∧ length (first :: rest) = length (chunks content)
    ∧ [call_for (replicate 1000 97%N); call_for (replicate 500 97%N)]
      = [] ++ (call_for <$> chunks content)
    ∧ field (success (str "0 1") 1 1) "summary"
      = Some (JStr (Py.join (str " ") (first :: rest)))
    ∧ Py.join (str " ") (first :: rest)
      = first ++ concat ((λ text, [32%N] ++ text) <$> rest).
Proof.
  apply (summary_joins_in_order numbering (request (replicate 1500 97%N))).
  - vm_compute. reflexivity.
  - reflexivity.
Defined.

(** The response for a [content] that is not blank, when the call for
    every chunk returns: status 200 and the three fields; the [summary]
    is empty only when the content is one chunk and the summary of that
    chunk is the empty text. *)
Lemma nonblank_content_response {W} (f : pipeline W) (data : json)
    (content : pystr) (w w' : W) (texts : list pystr) :
  request_content data = Some (JStr content) →
  ¬ whitespace content →
  summarized f (chunks content) w texts w' →
  ∃ resp summary wc lc,
    analyze f data w = (inr resp, w')
    ∧ status resp = 200
    ∧ fields resp = {[ str "summary"; str "word_count"; str "line_count" ]}
    ∧ field resp "summary" = Some (JStr summary)
    ∧ field resp "word_count" = Some (JInt wc)
    ∧ field resp "line_count" = Some (JInt lc)
    ∧ (summary = [] ↔ texts = [[]])
    ∧ (Exists (λ text, text ≠ []) texts → summary ≠ [])
    ∧ (1000 < len content → summary ≠ []).
Proof.
  intros Hc Hws Hsum.
  assert (Py.strip content ≠ []) as Hs by (by rewrite strip_nil).
  exists (success (Py.join (str " ") texts) (len (Py.split content))
            (len (Py.split_on LF content))),
    (Py.join (str " ") texts), (len (Py.split content)),
    (len (Py.split_on LF content)).
  destruct (success_fields (Py.join (str " ") texts) (len (Py.split content))
              (len (Py.split_on LF content))) as (Hf1 & Hf2 & Hf3 & _ & Hdom).
  pose proof (summarized_length _ _ _ _ _ Hsum) as Hlen.
  assert (texts ≠ []) as Htexts.
  { apply chunks_nonempty in Hs. intros ->. by destruct (chunks content). }
  pose proof (join_space_nil texts Htexts) as Hnil.
  split_and!; try done.
  - rewrite (analyze_try f data content w Hc Hs). unfold try_except_Exception.
    assert (summarize f content w
            = (inr (success (Py.join (str " ") texts) (len (Py.split content))
                      (len (Py.split_on LF content))), w')) as ->; [|done].
    apply summarize_returns. by exists texts.
  - intros Hex Hjoin. apply Hnil in Hjoin as ->.
    apply Exists_cons in Hex as [Hex|Hex]; [done | by apply Exists_nil in Hex].
  - intros Hlong Hjoin. apply Hnil in Hjoin as ->.
    pose proof (chunks_length content) as Hn.
    assert (len (chunks content) = 1) as H1 by (unfold len; rewrite <- Hlen; done).
    rewrite H1 in Hn. symmetry in Hn. apply ceil_div_spec in Hn; lia.
Qed.

(** The handler sends no empty chunk. *)
Lemma chunks_all_nonempty (content : pystr) :
  Forall (λ chunk, chunk ≠ []) (chunks content).
Proof.
  apply Forall_lookup_2. intros k chunk Hk.
  pose proof (chunks_partition_lengths content k chunk Hk) as Hpos.
  intros ->. by unfold len in Hpos.
Qed.

(** A pipeline that honours [min_length] returns no empty summary for
    chunks that are not empty. *)
Lemma summaries_nonempty {W} (f : pipeline W) chunks w texts w' :
  honours_min_length f →
  Forall (λ chunk, chunk ≠ []) chunks →
  summarized f chunks w texts w' →
  Forall (λ text, text ≠ []) texts.
Proof.
  intros Hf Hchunks Hsum.
  induction Hsum as [|chunk rest w text w1 texts w2 Hs _ IH]; [constructor|].
  apply Forall_cons in Hchunks as [Hchunk Hrest]. constructor; [|by apply IH].
  by apply (Hf chunk 130 30 false w text w1).
Qed.

(** C7: for a [content] that is a string with a character that is not
    whitespace, when the call for every chunk returns its summary (the
    pipeline honouring the [min_length] of 30 it is called with, so that a
    summary is not an empty text), the handler answers with status 200 and
    a body with exactly the fields [summary], [word_count] and
    [line_count], and the [summary] is not empty. *)
Theorem nonblank_content_succeeds {W} (f : pipeline W) (data : json)
    (content : pystr) (w w' : W) (texts : list pystr) :
  honours_min_length f →
  request_content data = Some (JStr content) →
  ¬ whitespace content →
  summarized f (chunks content) w texts w' →
  ∃ resp summary wc lc,
    analyze f data w = (inr resp, w')
    ∧ status resp = 200
    ∧ fields resp = {[ str "summary"; str "word_count"; str "line_count" ]}
    ∧ field resp "summary" = Some (JStr summary)
    ∧ summary ≠ []
    ∧ field resp "word_count" = Some (JInt wc)
    ∧ field resp "line_count" = Some (JInt lc).
Proof.
  intros Hf Hc Hws Hsum.
  destruct (nonblank_content_response f data content w w' texts Hc Hws Hsum)
    as (resp & summary & wc & lc & Ha & Hst & Hdom & Hs & Hwc & Hlc & _ & Hex & _).
  exists resp, summary, wc, lc. split_and!; try done.
  apply Hex. pose proof (summaries_nonempty f _ _ _ _ Hf (chunks_all_nonempty content) Hsum)
    as Htexts.
  assert (Py.strip content ≠ []) as Hstrip by (by rewrite strip_nil).
  apply chunks_nonempty in Hstrip.
  pose proof (summarized_length _ _ _ _ _ Hsum) as Hlen.
  destruct texts as [|first rest]; [by destruct (chunks content)|].
  apply Forall_cons in Htexts as [Hfirst _]. by apply Exists_cons_hd.
Qed.

Lemma nonblank_content_succeeds_witness :
  ∃ resp summary wc lc,
    analyze echo3 (request (str "The quick brown fox jumps over the lazy dog.")) ()
    = (inr resp, ())
    ∧ status resp = 200
    ∧ fields resp = {[ str "summary"; str "word_count"; str "line_count" ]}
    ∧ field resp "summary" = Some (JStr summary)
    ∧ summary ≠ []
    ∧ field resp "word_count" = Some (JInt wc)
    ∧ field resp "line_count" = Some (JInt lc).
Proof.
  apply (nonblank_content_succeeds echo3 _
           (str "The quick brown fox jumps over the lazy dog.") () ()
           [str "The"]).
  - intros chunk max_length min_length do_sample w text w' Hchunk _ [= <- _].
    by destruct chunk.
  - vm_compute. reflexivity.
  - intros Hws. by apply Forall_cons in Hws as [[=] _].
  - econstructor; [vm_compute; reflexivity | constructor].
Defined.

(** The pipeline has to honour [min_length] for the summary not to be
    empty: [silent] does not, it returns the empty text for the chunk "a",
    and the 200 response has the summary "". *)
Example silent_summary_empty :
  request_content (request (str "a")) = Some (JStr (str "a"))
  ∧ ¬ whitespace (str "a")
  ∧ summarized silent (chunks (str "a")) () [[]] ()
  ∧ analyze silent (request (str "a")) () = (inr (success [] 1 1), ())
  ∧ ¬ ∃ resp summary,
        analyze silent (request (str "a")) () = (inr resp, ())
        ∧ status resp = 200
        ∧ field resp "summary" = Some (JStr summary)
        ∧ summary ≠ [].
Proof.
  assert (analyze silent (request (str "a")) () = (inr (success [] 1 1), ()))
    as Ha by (vm_compute; reflexivity).
  split_and!.
  - vm_compute. reflexivity.
  - intros Hws. by apply Forall_cons in Hws as [[=] _].
  - econstructor; [vm_compute; reflexivity | constructor].
  - done.
  - intros (resp & summary & Hr & _ & Hf & Hne). rewrite Ha in Hr.
    injection Hr as <-. vm_compute in Hf. by injection Hf as <-.
Qed.

(** C8: with a deterministic pipeline, what the handler returns (or
    raises) for a request does not depend on the world the request is
    handled in; in particular a second request with the same body, handled
    in the world the first one left, gets the same outcome as the first. *)
Theorem analyze_deterministic {W} (f : pipeline W) (data : json) :
  deterministic f →
  (∀ w1 w2, (analyze f data w1).1 = (analyze f data w2).1)
  ∧ (∀ w, (analyze f data (analyze f data w).2).1 = (analyze f data w).1).
Proof.
  intros Hf.
  assert (∀ w1 w2, (analyze f data w1).1 = (analyze f data w2).1) as H;
    [|split; [done | intros w; apply H]].
  intros w1 w2. unfold analyze, get, mbind, M_bind, mret, M_ret.
  destruct data as [| | | | | |d]; try done. simpl.
  destruct (default (JStr []) (d !! str "content")) as [| | | |content| |]; try done.
  destruct (Py.strip content); [done|].
  unfold try_except_Exception, summarize, mbind, M_bind, mret, M_ret.
  pose proof (comprehension_deterministic f (chunks content) w1 w2 Hf) as Hc.
  destruct (comprehension _ _ w1) as [[e1|texts1] u1],
           (comprehension _ _ w2) as [[e2|texts2] u2]; simpl in Hc; try done.
  - injection Hc as ->. by destruct (exn_is_Exception e2).
  - by injection Hc as ->.
Qed.

Lemma analyze_deterministic_witness :
  (∀ w1 w2, (analyze counting (request (replicate 1500 97%N)) w1).1
            = (analyze counting (request (replicate 1500 97%N)) w2).1)
  ∧ (∀ w, (analyze counting (request (replicate 1500 97%N))
             (analyze counting (request (replicate 1500 97%N)) w).2).1
          = (analyze counting (request (replicate 1500 97%N)) w).1).
Proof.
  apply (analyze_deterministic counting (request (replicate 1500 97%N))).
  intros chunk max_length min_length do_sample w1 w2. reflexivity.
Defined.

(** C9: when the [content] field is present and is not a string, the
    emptiness check raises an [AttributeError] before the [try] statement:
    the handler returns no response, so neither the 400 body nor the 500
    body, and the pipeline is not called. *)
Theorem non_string_content_raises {W} (f : pipeline W) (data v : json)
    (w : W) (log : list call) :
  request_content data = Some v →
  (∀ s, v ≠ JStr s) →
  analyze f data w = (inl (AttributeError v "strip"), w)
  ∧ analyze (spy f) data (w, log) = (inl (AttributeError v "strip"), (w, log))
  ∧ ∀ resp w', analyze f data w ≠ (inr resp, w').
Proof.
  intros Hc Hv. destruct data as [| | | | | |d]; try done. simpl in Hc.
  assert (∀ V (g : pipeline V) (u : V),
            analyze g (JDict d) u = (inl (AttributeError v "strip"), u)) as H.
  { intros V g u. unfold analyze, get, mbind, M_bind, mret, M_ret.
    rewrite Hc. simpl. destruct v; try done. by destruct (Hv s). }
  split; [apply H|]. split; [apply H|].
  intros resp w'. by rewrite H.
Qed.

Lemma non_string_content_raises_witness :
  analyze echo3 (JDict {[ str "content" := JInt 5 ]}) ()
  = (inl (Exn (str "AttributeError") true
              (str "'int' object has no attribute 'strip'")), ()).
Proof.
  apply (non_string_content_raises echo3 (JDict {[ str "content" := JInt 5 ]})
           (JInt 5) () []).
  - vm_compute. reflexivity.
  - intros s. discriminate.
Defined.

(** C10: a 200 response is only given for a [content] with a character
    that is not whitespace; then [word_count] and [line_count] are at
    least 1, and the pipeline has been called at least once, every call
    with a chunk that is not empty and of at most 1000 characters. *)
Theorem success_invariants {W} (f : pipeline W) (data : json)
    (w w' : W) (log log' : list call) (resp : response) :
  analyze (spy f) data (w, log) = (inr resp, (w', log')) →
  status resp = 200 →
  ∃ content c wc lc calls,
    request_content data = Some (JStr content)
    ∧ c ∈ content ∧ Py.isspace c = false
    ∧ field resp "word_count" = Some (JInt wc) ∧ 1 ≤ wc
    ∧ field resp "line_count" = Some (JInt lc) ∧ 1 ≤ lc
    ∧ log' = log ++ calls
    ∧ calls ≠ []
    ∧ Forall (λ k, call_text k ≠ [] ∧ len (call_text k) ≤ 1000
                   ∧ call_max_length k = 130 ∧ call_min_length k = 30
                   ∧ call_do_sample k = false) calls.
Proof.
  intros Ha Hst.
  destruct (analyze_200 _ _ _ _ _ Ha Hst) as (content & texts & Hc & Hs & Hsum & ->).
  apply spy_summarized in Hsum as [Hsum ->].
  destruct (strip_cons content Hs) as (c & Hin & Hsp).
  destruct (success_fields (Py.join (str " ") texts) (len (Py.split content))
              (len (Py.split_on LF content))) as (_ & Hwc & Hlc & _).
  exists content, c, (len (Py.split content)), (len (Py.split_on LF content)),
    (call_for <$> chunks content).
  split_and!; try done.
  - pose proof (split_nonempty content c Hin Hsp).
    unfold len. destruct (Py.split content); [done | simpl; lia].
  - pose proof (split_char_nonempty LF [] content).
    unfold len, Py.split_on. destruct (Py.split_char LF [] content); [done | simpl; lia].
  - apply chunks_nonempty in Hs. by destruct (chunks content).
  - apply Forall_fmap, Forall_lookup_2. intros k chunk Hk. simpl.
    destruct (chunks_partition content) as (_ & Hchunk & _).
    destruct (Hchunk k chunk Hk) as (Hlen & Hpos & _).
    split_and!; try done; [|lia]. intros ->. by unfold len in Hpos.
Qed.

Lemma success_invariants_witness :
  ∃ content c wc lc calls,
    request_content (request (replicate 1500 97%N)) = Some (JStr content)
    ∧ c ∈ content ∧ Py.isspace c = false
    ∧ field (success (str "0 1") 1 1) "word_count" = Some (JInt wc) ∧ 1 ≤ wc
    ∧ field (success (str "0 1") 1 1) "line_count" = Some (JInt lc) ∧ 1 ≤ lc
    ∧ [call_for (replicate 1000 97%N); call_for (replicate 500 97%N)]
      = [] ++ calls
    ∧ calls ≠ []
    ∧ Forall (λ k, call_text k ≠ [] ∧ len (call_text k) ≤ 1000
                   ∧ call_max_length k = 130 ∧ call_min_length k = 30
                   ∧ call_do_sample k = false) calls.
Proof.
  apply (success_invariants numbering (request (replicate 1500 97%N)) 0%N 2%N).
  - vm_compute. reflexivity.
  - reflexivity.
Defined.

(** Without determinism the outcome can differ: [numbering] gives the
    second of two equal requests another summary. *)
Example numbering_differs :
  (analyze numbering (request (str "a")) 0%N).1
  = (inr (success (str "0") 1 1))
  ∧ (analyze numbering (request (str "a"))
       (analyze numbering (request (str "a")) 0%N).2).1
    = (inr (success (str "1") 1 1)).
Proof. split; vm_compute; reflexivity. Qed.

(** The request [{"content": "The quick brown fox jumps over the lazy dog."}]:
    44 characters, one chunk, 9 words and 1 line. *)
Example quick_brown_fox :
  len (str "The quick brown fox jumps over the lazy dog.") = 44
  ∧ chunks (str "The quick brown fox jumps over the lazy dog.")
    = [str "The quick brown fox jumps over the lazy dog."]
  ∧ analyze echo3 (request (str "The quick brown fox jumps over the lazy dog.")) ()
    = (inr (success (str "The") 9 1), ()).
Proof. split_and!; vm_compute; reflexivity. Qed.

(** * Further properties of the handler *)

(** ** Bodies that are not objects *)

(** X1: when the request body is not a JSON object, [data.get] raises an
    [AttributeError] before anything else happens: the handler returns no
    response, the pipeline is not called and its world is unchanged. *)
Theorem non_object_body_raises {W} (f : pipeline W) (data : json)
    (w : W) (log : list call) :
  (∀ d, data ≠ JDict d) →
  analyze f data w = (inl (AttributeError data "get"), w)
  ∧ analyze (spy f) data (w, log) = (inl (AttributeError data "get"), (w, log))
  ∧ exn_str (AttributeError data "get")
    = str "'" ++ type_name data ++ str "' object has no attribute 'get'".
Proof.
  intros Hd. destruct data as [| | | | | |d]; try done. by destruct (Hd d).
Qed.

Lemma non_object_body_raises_witness :
  analyze echo3 (JList [JStr (str "text")]) ()
  = (inl (Exn (str "AttributeError") true
              (str "'list' object has no attribute 'get'")), ()).
Proof.
  apply (non_object_body_raises echo3 (JList [JStr (str "text")]) () []).
  intros d. discriminate.
Defined.

(** ** Exceptions that are not instances of [Exception] *)

(** X2: when the call for some chunk raises an exception that is not an
    instance of [Exception], the [except] clause does not apply: the
    exception leaves the handler, which returns no response, neither the
    500 one nor one with the summaries of the chunks before. *)
Theorem base_exception_propagates {W} (f : pipeline W) (data : json)
    (content : pystr) (w w' : W) (e : exn) :
  request_content data = Some (JStr content) →
  ¬ whitespace content →
  raised_at f (chunks content) w e w' →
  exn_is_Exception e = false →
  analyze f data w = (inl e, w')
  ∧ ∀ resp w'', analyze f data w ≠ (inr resp, w'').
Proof.
  intros Hc Hws Hr He.
  assert (Py.strip content ≠ []) as Hs by (by rewrite strip_nil).
  assert (analyze f data w = (inl e, w')) as Ha
    by (by apply (analyze_propagates f data content)).
  split; [done|]. intros resp w''. by rewrite Ha.
Qed.

Lemma base_exception_propagates_witness :
  analyze interrupted (request (replicate 1500 97%N)) 0%N
  = (inl KeyboardInterrupt, 2%N).
Proof.
  apply (base_exception_propagates interrupted (request (replicate 1500 97%N))
           (replicate 1500 97%N) 0%N 2%N KeyboardInterrupt).
  - vm_compute. reflexivity.
  - intros Hws. by apply Forall_cons in Hws as [[=] _].
  - let cs := eval vm_compute in (chunks (replicate 1500 97%N)) in
    change (chunks (replicate 1500 97%N)) with cs.
    eapply raised_later; [vm_compute; reflexivity|].
    apply raised_here. vm_compute. reflexivity.
  - reflexivity.
Defined.

(** ** The calls of a request that fails *)

(** The run of the calls up to the one that raises. *)
Lemma raised_at_index {W} (f : pipeline W) chunks w e w' :
  raised_at f chunks w e w'
  ↔ ∃ (k : nat) chunk texts wk,
      chunks !! k = Some chunk
      ∧ summarized f (take k chunks) w texts wk
      ∧ f chunk 130 30 false wk = (inl e, w').
Proof.
  split.
  - induction 1 as [chunk rest w e w' Hs|chunk rest w text w1 e w' Hs _ IH].
    + exists 0%nat, chunk, [], w. split_and!; [done|constructor|done].
    + destruct IH as (k & c & texts & wk & Hk & Hsum & Hc).
      exists (S k), c, (text :: texts), wk. split_and!; [done| |done].
      simpl. by econstructor.
  - intros (k & chunk & texts & wk & Hk & Hsum & Hc).
    revert chunks w texts Hk Hsum. induction k as [|k IH]; intros chunks w texts Hk Hsum.
    + destruct chunks as [|c rest]; [done|]. injection Hk as ->.
      simpl in Hsum. inversion Hsum; subst. by constructor.
    + destruct chunks as [|c rest]; [done|]. simpl in Hk, Hsum.
      inversion Hsum as [|? ? ? text w1 texts' ? Hs Hrest]; subst.
      eapply raised_later; [done|]. by eapply IH.
Qed.

(** The log of a run that raises: the calls for the chunks up to the one
    whose call raises, and no call after it. *)
Lemma spy_raised {W} (f : pipeline W) chunks w log e w' log' :
  raised_at (spy f) chunks (w, log) e (w', log')
  ↔ ∃ (k : nat) chunk texts wk,
      chunks !! k = Some chunk
      ∧ summarized f (take k chunks) w texts wk
      ∧ f chunk 130 30 false wk = (inl e, w')
      ∧ log' = log ++ (call_for <$> take (S k) chunks).
Proof.
  rewrite raised_at_index. split.
  - intros (k & chunk & texts & [wk logk] & Hk & Hsum & Hc).
    apply spy_summarized in Hsum as [Hsum ->].
    apply spy_result in Hc as [Hc ->].
    exists k, chunk, texts, wk. split_and!; [done..|].
    rewrite (take_S_r _ _ _ Hk), fmap_app, app_assoc. done.
  - intros (k & chunk & texts & wk & Hk & Hsum & Hc & ->).
    exists k, chunk, texts, (wk, log ++ (call_for <$> take k chunks)).
    split_and!; [done| |].
    + by apply spy_summarized.
    + apply spy_result. split; [done|].
      rewrite (take_S_r _ _ _ Hk), fmap_app, app_assoc. done.
Qed.

(** X3: a 500 response comes from a call of the pipeline that raised an
    instance of [Exception]: the calls for the chunks before it returned,
    their summaries are dropped, the body is [{"error": str(e)}] for the
    exception [e] of that call, and the pipeline was called for the chunks
    up to that one, in order, and for no chunk after it. *)
Theorem failure_stops_the_calls {W} (f : pipeline W) (data : json)
    (w w' : W) (log log' : list call) (resp : response) :
  analyze (spy f) data (w, log) = (inr resp, (w', log')) →
  status resp = 500 →
  ∃ content (k : nat) chunk texts wk e,
    request_content data = Some (JStr content)
    ∧ chunks content !! k = Some chunk
    ∧ summarized f (take k (chunks content)) w texts wk
    ∧ f chunk 130 30 false wk = (inl e, w')
    ∧ exn_is_Exception e = true
    ∧ resp = Response 500 (JDict {[ str "error" := JStr (exn_str e) ]})
    ∧ log' = log ++ (call_for <$> take (S k) (chunks content)).
Proof.
  intros Ha Hst. destruct data as [| | | | |l|d]; try done.
  unfold analyze, get, mbind, M_bind, mret, M_ret in Ha. simpl in Ha.
  destruct (d !! str "content") as [v|] eqn:Hd; simpl in Ha.
  - destruct v as [| | | |content| |]; try done.
    destruct (Py.strip content) as [|c s] eqn:Hstrip.
    + injection Ha as <- <-. done.
    + unfold try_except_Exception in Ha.
      destruct (summarize (spy f) content (w, log)) as [[e|r] w1] eqn:Hsum.
      * destruct (exn_is_Exception e) eqn:He; [|done].
        injection Ha as <- ->. apply summarize_raises in Hsum.
        apply spy_raised in Hsum as (k & chunk & texts & wk & Hk & Hs & Hc & ->).
        by exists content, k, chunk, texts, wk, e.
      * injection Ha as <- Hw.
        apply summarize_returns in Hsum as (texts & _ & ->). done.
  - injection Ha as <- <-. done.
Qed.

Lemma failure_stops_the_calls_witness :
  ∃ content (k : nat) chunk texts wk e,
    request_content (request (replicate 2500 97%N)) = Some (JStr content)
    ∧ chunks content !! k = Some chunk
    ∧ summarized short_fails (take k (chunks content)) () texts wk
    ∧ short_fails chunk 130 30 false wk = (inl e, ())
    ∧ exn_is_Exception e = true
    ∧ failure (RuntimeError "index out of range in self")
      = Response 500 (JDict {[ str "error" := JStr (exn_str e) ]})
    ∧ [call_for (replicate 1000 97%N); call_for (replicate 1000 97%N);
       call_for (replicate 500 97%N)]
      = [] ++ (call_for <$> take (S k) (chunks content)).
Proof.
  apply (failure_stops_the_calls short_fails (request (replicate 2500 97%N)) () ()).
  - vm_compute. reflexivity.
  - reflexivity.
Defined.

(** ** The responses the handler returns *)

Lemma analyze_cases {W} (f : pipeline W) data w resp w' :
  analyze f data w = (inr resp, w') →
  (resp = empty_content ∧ w' = w)
  ∨ (∃ e, resp = failure e ∧ exn_is_Exception e = true)
  ∨ (∃ summary wc lc, resp = success summary wc lc).
Proof.
  intros Ha. destruct data as [| | | | |l|d]; try done.
  unfold analyze, get, mbind, M_bind, mret, M_ret in Ha. simpl in Ha.
  destruct (default (JStr []) (d !! str "content")) as [| | | |content| |]; try done.
  destruct (Py.strip content) as [|c s].
  - injection Ha as <- <-. by left.
  - unfold try_except_Exception in Ha.
    destruct (summarize f content w) as [[e|r] w1] eqn:Hsum.
    + destruct (exn_is_Exception e) eqn:He; [|done].
      injection Ha as <- <-. right; left. by exists e.
    + injection Ha as <- <-. apply summarize_returns in Hsum as (texts & _ & ->).
      right; right. by eexists _, _, _.
Qed.

(** X4: a response of the handler has one of three shapes: status 200
    with exactly the fields [summary], [word_count] and [line_count];
    status 400 with the one field [error] holding "Empty content", the
    world of the pipeline unchanged; or status 500 with the one field
    [error] holding [str(e)] of an instance [e] of [Exception]. No
    response has both a [summary] and an [error]. *)
Theorem response_shapes {W} (f : pipeline W) (data : json)
    (w w' : W) (resp : response) :
  analyze f data w = (inr resp, w') →
  ((status resp = 200
    ∧ fields resp = {[ str "summary"; str "word_count"; str "line_count" ]})
   ∨ (status resp = 400
      ∧ fields resp = {[ str "error" ]}
      ∧ field resp "error" = Some (JStr (str "Empty content"))
      ∧ w' = w)
   ∨ (status resp = 500
      ∧ fields resp = {[ str "error" ]}
      ∧ ∃ e, exn_is_Exception e = true
             ∧ field resp "error" = Some (JStr (exn_str e))))
  ∧ (field resp "summary" = None ∨ field resp "error" = None).
Proof.
  intros Ha.
  destruct (analyze_cases f data w resp w' Ha)
    as [[-> ->]|[(e & -> & He)|(summary & wc & lc & ->)]].
  - split; [|left; vm_compute; reflexivity].
    right; left. split_and!; try done; vm_compute; reflexivity.
  - destruct (failure_fields e) as (Herr & Hsum & Hdom).
    split; [|by left]. right; right. split_and!; try done. by exists e.
  - destruct (success_fields summary wc lc) as (_ & _ & _ & Herr & Hdom).
    split; [|by right]. by left.
Qed.

Lemma response_shapes_witness :
  ((status (failure (RuntimeError "index out of range in self")) = 200
    ∧ fields (failure (RuntimeError "index out of range in self"))
      = {[ str "summary"; str "word_count"; str "line_count" ]})
   ∨ (status (failure (RuntimeError "index out of range in self")) = 400
      ∧ fields (failure (RuntimeError "index out of range in self"))
        = {[ str "error" ]}
      ∧ field (failure (RuntimeError "index out of range in self")) "error"
        = Some (JStr (str "Empty content"))
      ∧ () = ())
   ∨ (status (failure (RuntimeError "index out of range in self")) = 500
      ∧ fields (failure (RuntimeError "index out of range in self"))
        = {[ str "error" ]}
      ∧ ∃ e, exn_is_Exception e = true
             ∧ field (failure (RuntimeError "index out of range in self")) "error"
               = Some (JStr (exn_str e))))
  ∧ (field (failure (RuntimeError "index out of range in self")) "summary" = None
     ∨ field (failure (RuntimeError "index out of range in self")) "error" = None).
Proof.
  apply (response_shapes short_fails (request (replicate 1500 97%N)) () ()).
  vm_compute. reflexivity.
Defined.

(** ** The text the pipeline is given *)

(** X5: in a request with a 200 response, the chunks of the calls, put
    together in the order of the calls, are the [content] of the request
    as it came, every character once and none trimmed; there are
    ceil(L/1000) calls for a [content] of L characters. *)
Theorem calls_cover_content {W} (f : pipeline W) (data : json)
    (w w' : W) (log log' : list call) (resp : response) :
  analyze (spy f) data (w, log) = (inr resp, (w', log')) →
  status resp = 200 →
  ∃ content calls,
    request_content data = Some (JStr content)
    ∧ log' = log ++ calls
    ∧ concat (call_text <$> calls) = content
    ∧ len calls = ceil_div (len content) 1000.
Proof.
  intros Ha Hst.
  destruct (analyze_200 _ _ _ _ _ Ha Hst) as (content & texts & Hc & Hs & Hsum & ->).
  apply spy_summarized in Hsum as [Hsum ->].
  exists content, (call_for <$> chunks content).
  destruct (chunks_partition content) as (Hlen & _ & Hcat).
  split_and!; [done..| |].
  - rewrite <- list_fmap_compose.
    rewrite (list_fmap_ext (call_text ∘ call_for) id (chunks content)) by done.
    by rewrite list_fmap_id.
  - unfold len in *. by rewrite length_fmap.
Qed.

Lemma calls_cover_content_witness :
  ∃ content calls,
    request_content (request (str "  a b  ")) = Some (JStr content)
    ∧ [call_for (str "  a b  ")] = [] ++ calls
    ∧ concat (call_text <$> calls) = content
    ∧ len calls = ceil_div (len content) 1000.
Proof.
  apply (calls_cover_content echo3 (request (str "  a b  ")) () ()
           [] [call_for (str "  a b  ")] (success (str "  a") 2 1)).
  - vm_compute. reflexivity.
  - reflexivity.
Defined.

(** ** Contents of at most 1000 characters *)

Lemma chunks_short (content : pystr) :
  content ≠ [] → len content ≤ 1000 → chunks content = [content].
Proof.
  intros Hne Hlen. rewrite chunks_unfold.
  assert (ceil_div (len content) 1000 = 1) as ->.
  { apply ceil_div_spec; [lia|]. destruct content; [done|].
    unfold len in *. simpl in *. lia. }
  simpl. rewrite drop_0, take_ge; [done | unfold len in Hlen; lia].
Qed.

(** X6: a [content] of at most 1000 characters that is not blank is one
    chunk: the pipeline is called once, with the [content] as it came
    (whitespace at its ends included), and the outcome is that of this
    call: its text as the [summary] of a 200 response, or its exception,
    in a 500 response when it is an instance of [Exception]. *)
Theorem short_content_one_call {W} (f : pipeline W) (data : json)
    (content : pystr) (w w' : W) (log : list call) (r : exn + pystr) :
  request_content data = Some (JStr content) →
  ¬ whitespace content →
  len content ≤ 1000 →
  f content 130 30 false w = (r, w') →
  analyze (spy f) data (w, log)
  = (match r with
     | inr text =>
         inr (success text (len (Py.split content)) (len (Py.split_on LF content)))
     | inl e => if exn_is_Exception e then inr (failure e) else inl e
     end,
     (w', log ++ [call_for content])).
Proof.
  intros Hc Hws Hlen Hf.
  assert (Py.strip content ≠ []) as Hs by (by rewrite strip_nil).
  assert (content ≠ []) as Hne by (intros ->; apply Hws; constructor).
  rewrite (analyze_try (spy f) data content (w, log) Hc Hs).
  unfold try_except_Exception, summarize, mbind, M_bind, mret, M_ret.
  rewrite (chunks_short content Hne Hlen). simpl.
  unfold mbind, M_bind, mret, M_ret.
  assert (spy f content 130 30 false (w, log) = (r, (w', log ++ [call_for content])))
    as -> by (by apply spy_result).
  destruct r as [e|text]; [by destruct (exn_is_Exception e) | done].
Qed.

Lemma short_content_one_call_witness :
  analyze (spy echo3) (request (str "  a b  ")) ((), [])
  = (inr (success (str "  a") (len (Py.split (str "  a b  ")))
                  (len (Py.split_on LF (str "  a b  ")))),
     ((), [] ++ [call_for (str "  a b  ")])).
Proof.
  apply (short_content_one_call echo3 (request (str "  a b  ")) (str "  a b  ")
           () () [] (inr (str "  a"))).
  - vm_compute. reflexivity.
  - intros Hws. do 2 apply Forall_cons in Hws as [_ Hws].
    by apply Forall_cons in Hws as [[=] _].
  - vm_compute. discriminate.
  - reflexivity.
Defined.

(** ** Empty content and the word count *)

Lemma split_nil (s : pystr) : Py.split s = [] ↔ whitespace s.
Proof.
  split.
  - intros Hnil. pose proof (split_tokenized s) as Ht. rewrite Hnil in Ht.
    by inversion Ht.
  - intros Hws. by apply tokenized_split, tokenized_end.
Qed.

(** X7: for a [content] that is a string, the handler answers 400 exactly
    when [content.split()] has no word: the contents that are refused as
    empty are those whose word count would be 0. *)
Theorem empty_iff_no_words {W} (f : pipeline W) (data : json)
    (content : pystr) (w : W) :
  request_content data = Some (JStr content) →
  ((∃ resp w', analyze f data w = (inr resp, w') ∧ status resp = 400)
   ↔ len (Py.split content) = 0).
Proof.
  intros Hc. destruct data as [| | | | | |d]; try done. simpl in Hc.
  assert (len (Py.split content) = 0 ↔ whitespace content) as ->.
  { rewrite <- split_nil. unfold len. destruct (Py.split content); [done|].
    simpl. split; [lia | done]. }
  split.
  - intros (resp & w' & Ha & Hst).
    destruct (decide (whitespace content)) as [Hws|Hws]; [done|].
    assert (Py.strip content ≠ []) as Hs by (by rewrite strip_nil).
    rewrite (analyze_try f (JDict d) content w Hc Hs) in Ha.
    unfold try_except_Exception in Ha.
    destruct (summarize f content w) as [[e|r] w1] eqn:Hsum.
    + destruct (exn_is_Exception e); [|done]. by injection Ha as <- <-.
    + injection Ha as <- <-.
      apply summarize_returns in Hsum as (texts & _ & ->). done.
  - intros Hws. exists empty_content, w. split; [|done].
    apply analyze_empty. right. by exists content.
Qed.

Lemma empty_iff_no_words_witness :
  (∃ resp w', analyze echo3 (request (str " ")) () = (inr resp, w')
              ∧ status resp = 400)
  ↔ len (Py.split (str " ")) = 0.
Proof.
  apply (empty_iff_no_words echo3 (request (str " ")) (str " ") ()).
  vm_compute. reflexivity.
Defined.

(** ** Words and chunk boundaries *)

Lemma split_whitespace_length (word s : pystr) :
  length (Py.split_whitespace word s)
  = match word with
    | [] => word_starts true s
    | _ => S (word_starts false s)
    end.
Proof.
  revert word. induction s as [|c s IH]; intros word.
  - by destruct word.
  - simpl. destruct (Py.isspace c) eqn:Hc.
    + destruct word; simpl; by rewrite (IH []).
    + rewrite (IH (word ++ [c])). destruct word; simpl; done.
Qed.

Lemma split_length (s : pystr) : length (Py.split s) = word_starts true s.
Proof. apply (split_whitespace_length [] s). Qed.

Lemma word_starts_fresh (b : bool) (s : pystr) :
  (word_starts false s ≤ word_starts b s
   ∧ word_starts b s ≤ word_starts true s
   ∧ word_starts true s ≤ S (word_starts false s))%nat.
Proof.
  destruct s as [|c s]; [destruct b; simpl; lia|].
  simpl. destruct b, (Py.isspace c); simpl; lia.
Qed.

Lemma word_starts_app (b : bool) (s t : pystr) :
  (word_starts b s + word_starts false t ≤ word_starts b (s ++ t)
   ∧ word_starts b (s ++ t) ≤ word_starts b s + word_starts true t)%nat.
Proof.
  revert b. induction s as [|c s IH]; intros b.
  - simpl. pose proof (word_starts_fresh b t). lia.
  - simpl. specialize (IH (Py.isspace c)). lia.
Qed.

(** Cutting a string in two cuts at most one word in two. *)
Lemma split_app_length (s t : pystr) :
  (length (Py.split (s ++ t)) ≤ length (Py.split s) + length (Py.split t)
   ∧ length (Py.split s) + length (Py.split t) ≤ S (length (Py.split (s ++ t))))%nat.
Proof.
  rewrite !split_length.
  pose proof (word_starts_app true s t). pose proof (word_starts_fresh true t).
  lia.
Qed.

Lemma total_words_concat (parts : list pystr) :
  (length (Py.split (concat parts)) ≤ total_words parts
   ∧ total_words parts ≤ length (Py.split (concat parts)) + pred (length parts))%nat.
Proof.
  induction parts as [|p parts IH]; [done|].
  change (total_words (p :: parts))
    with (length (Py.split p) + total_words parts)%nat.
  change (concat (p :: parts)) with (p ++ concat parts).
  pose proof (split_app_length p (concat parts)) as H.
  destruct parts as [|q parts].
  - change (total_words []) with 0%nat. simpl concat in *.
    rewrite app_nil_r in *. simpl. lia.
  - change (length (p :: q :: parts)) with (S (S (length parts))).
    change (length (q :: parts)) with (S (length parts)) in IH.
    simpl pred in *. lia.
Qed.

(** X8: the chunks are cut without regard to words, and each of the cuts
    divides at most one word: the words of the chunks, counted chunk by
    chunk, are at least the words of [content] and at most that many plus
    the number of cuts (the number of chunks less one). *)
Theorem chunks_cut_words (content : pystr) :
  (length (Py.split content) ≤ total_words (chunks content)
   ∧ total_words (chunks content)
     ≤ length (Py.split content) + pred (length (chunks content)))%nat.
Proof.
  pose proof (total_words_concat (chunks content)) as H.
  destruct (chunks_partition content) as (_ & _ & Hcat). by rewrite Hcat in H.
Qed.

(** ** The length of the summary *)

Lemma join_length (sep : pystr) (parts : list pystr) :
  length (Py.join sep parts)
  = (sum_list (length <$> parts) + length sep * pred (length parts))%nat.
Proof.
  induction parts as [|p parts IH]; [simpl; lia|].
  destruct parts as [|q parts]; [simpl; lia|].
  rewrite join_cons by done. rewrite !length_app, IH. simpl. lia.
Qed.

(** X9: in a 200 response, the [summary] is as long as the summaries of
    the chunks together and one space for each chunk after the first:
    for a [content] of L characters, ceil(L/1000) - 1 spaces. *)
Theorem summary_length {W} (f : pipeline W) (data : json)
    (w w' : W) (resp : response) :
  analyze f data w = (inr resp, w') →
  status resp = 200 →
  ∃ content texts summary,
    request_content data = Some (JStr content)
    ∧ summarized f (chunks content) w texts w'
    ∧ field resp "summary" = Some (JStr summary)
    ∧ len summary
      = Z.of_nat (sum_list (length <$> texts)) + ceil_div (len content) 1000 - 1.
Proof.
  intros Ha Hst.
  destruct (analyze_200 _ _ _ _ _ Ha Hst) as (content & texts & Hc & Hs & Hsum & ->).
  exists content, texts, (Py.join (str " ") texts).
  split_and!; [done|done|apply success_fields|].
  pose proof (summarized_length _ _ _ _ _ Hsum) as Hlen.
  pose proof (chunks_length content) as Hn.
  apply chunks_nonempty in Hs.
  unfold len in *. rewrite join_length, Hlen. simpl length.
  destruct (chunks content); [done|]. simpl in *. lia.
Qed.

Lemma summary_length_witness :
  ∃ content texts summary,
    request_content (request (replicate 1500 97%N)) = Some (JStr content)
    ∧ summarized numbering (chunks content) 0%N texts 2%N
    ∧ field (success (str "0 1") 1 1) "summary" = Some (JStr summary)
    ∧ len summary
      = Z.of_nat (sum_list (length <$> texts)) + ceil_div (len content) 1000 - 1.
Proof.
  apply (summary_length numbering (request (replicate 1500 97%N))).
  - vm_compute. reflexivity.
  - reflexivity.
Defined.

(** ** Bounds on the counts *)

Lemma word_starts_bound (b : bool) (s : pystr) :
  (2 * word_starts b s ≤ length s + (if b then 1 else 0))%nat.
Proof.
  revert b. induction s as [|c s IH]; intros b; [destruct b; simpl; lia|].
  simpl. specialize (IH (Py.isspace c)).
  destruct b, (Py.isspace c); simpl in *; lia.
Qed.

(** X10: in a 200 response for a [content] of L characters, [word_count]
    is at most (L + 1) / 2, a word and the whitespace that ends it taking
    two characters, and [line_count] is at most L + 1. *)
Theorem counts_bounded {W} (f : pipeline W) (data : json)
    (w w' : W) (resp : response) :
  analyze f data w = (inr resp, w') →
  status resp = 200 →
  ∃ content wc lc,
    request_content data = Some (JStr content)
    ∧ field resp "word_count" = Some (JInt wc)
    ∧ field resp "line_count" = Some (JInt lc)
    ∧ 2 * wc ≤ len content + 1
    ∧ lc ≤ len content + 1.
Proof.
  intros Ha Hst.
  destruct (analyze_200 _ _ _ _ _ Ha Hst) as (content & texts & Hc & Hs & Hsum & ->).
  exists content, (len (Py.split content)), (len (Py.split_on LF content)).
  destruct (success_fields (Py.join (str " ") texts) (len (Py.split content))
              (len (Py.split_on LF content))) as (_ & Hwc & Hlc & _).
  split_and!; [done..| |].
  - unfold len. rewrite split_length.
    pose proof (word_starts_bound true content) as H. cbv iota in H. lia.
  - unfold len, Py.split_on. rewrite split_char_length.
    pose proof (length_filter (λ c, c = LF) content). lia.
Qed.

Lemma counts_bounded_witness :
  ∃ content wc lc,
    request_content (request (str "a b c")) = Some (JStr content)
    ∧ field (success (str "a b") 3 1) "word_count" = Some (JInt wc)
    ∧ field (success (str "a b") 3 1) "line_count" = Some (JInt lc)
    ∧ 2 * wc ≤ len content + 1
    ∧ lc ≤ len content + 1.
Proof.
  apply (counts_bounded echo3 (request (str "a b c")) () ()).
  - vm_compute. reflexivity.
  - reflexivity.
Defined.
